(** * The hierarchical logger of the backend (class [Logger])

    A shallow embedding of the class [Logger]: its constructor,
    [createSubLogger], the private [log] and [writeCloudLogging], and the five
    emission methods [error], [warn], [succ], [debug] and [info].

    - JavaScript objects that are shared with the caller (the [data] bag, an
      [Error]) live in an object store indexed by references, so that the
      assignment [data.e = x] is an update of the caller's object.
    - Console output and the call of [this.writeCloudLogging] are recorded as
      a trace of calls, each with the logger ([this]) that performed it.
    - The libraries the class imports (chalk, color-convert, date-fns,
      strip-ansi, util.inspect) are an interface, [Libraries]; the theorems
      hold for every implementation of it. *)

From Stdlib Require Import Ascii.
From stdpp Require Import base strings list gmap fin_maps pretty.

Local Open Scope string_scope.

(** ** Strings *)

(** The tab character of the template literal of [log]. *)
Definition TAB : string := String (ascii_of_nat 9) EmptyString.

(** The line feed that [writeCloudLogging] puts before the serialized data. *)
Definition LF : string := String (ascii_of_nat 10) EmptyString.

Definition toUpperCase_ascii (c : ascii) : ascii :=
  let n := nat_of_ascii c in
  if Nat.leb 97 n && Nat.leb n 122 then ascii_of_nat (n - 32) else c.

(** [String.prototype.toUpperCase], on ASCII text. *)
Fixpoint toUpperCase (s : string) : string :=
  match s with
  | EmptyString => EmptyString
  | String c s' => String (toUpperCase_ascii c) (toUpperCase s')
  end.

(** [sub] occurs in [s]. *)
Definition contains (sub s : string) : Prop :=
  ∃ pre post, s = pre +:+ sub +:+ post.

(** [String.prototype.includes]. *)
Definition includes (s sub : string) : bool :=
  match String.index 0 sub s with Some _ => true | None => false end.

(** ** Values and the object store *)

Definition loc := positive.

Inductive value :=
| VUndefined
| VNull
| VBool (b : bool)
| VString (s : string)
| VObject (l : loc).

(** An object is an [Error] (with the [name] and [message] of lib.d.ts, both
    strings) or a plain object; both carry further own properties. *)
Inductive object :=
| ErrorObject (name message : string) (props : gmap string value)
| PlainObject (props : gmap string value).

Abbreviation heap := (gmap loc object).

Definition props_of (o : object) : gmap string value :=
  match o with
  | ErrorObject _ _ ps => ps
  | PlainObject ps => ps
  end.

(** Property read [o.k]; a missing property reads as [undefined]. *)
Definition get_prop (k : string) (o : object) : value :=
  match o with
  | ErrorObject n m ps =>
      if decide (k = "name") then VString n
      else if decide (k = "message") then VString m
      else default VUndefined (ps !! k)
  | PlainObject ps => default VUndefined (ps !! k)
  end.

(** The assignment [o.e = v]. *)
Definition set_e (v : value) (o : object) : object :=
  match o with
  | ErrorObject n m ps => ErrorObject n m (<["e" := v]> ps)
  | PlainObject ps => PlainObject (<["e" := v]> ps)
  end.

(** [Error.prototype.toString]. *)
Definition Error_toString (name message : string) : string :=
  if decide (name = "") then message
  else if decide (message = "") then name
  else name +:+ ": " +:+ message.

(** The coercion of a template literal, [`${v}`]. *)
Definition ToString (h : heap) (v : value) : string :=
  match v with
  | VUndefined => "undefined"
  | VNull => "null"
  | VBool true => "true"
  | VBool false => "false"
  | VString s => s
  | VObject l =>
      match h !! l with
      | Some (ErrorObject n m _) => Error_toString n m
      | _ => "[object Object]"
      end
  end.

(** [a ?? b] *)
Definition nullish (a b : value) : value :=
  match a with
  | VUndefined | VNull => b
  | _ => a
  end.

(** The argument [data?: Record<string, any> | null]. *)
Inductive Data :=
| DUndefined
| DNull
| DObject (l : loc).

(** Truthiness of [data], as tested by [level === 'error' && data] and by
    [data ? ... : ''] . *)
Definition Data_truthy (d : Data) : bool :=
  match d with
  | DObject _ => true
  | _ => false
  end.

(** The argument [x: string | Error] of [error]. At run time any object can
    arrive; the middle branch of [error] is there for those. *)
Inductive ErrorArg :=
| XString (s : string)
| XObject (l : loc).

Definition ErrorArg_value (x : ErrorArg) : value :=
  match x with
  | XString s => VString s
  | XObject l => VObject l
  end.

(** [x instanceof Error] *)
Definition instanceof_Error (h : heap) (x : ErrorArg) : bool :=
  match x with
  | XObject l =>
      match h !! l with
      | Some (ErrorObject _ _ _) => true
      | _ => false
      end
  | XString _ => false
  end.

(** [typeof x === 'object'] *)
Definition typeof_object (x : ErrorArg) : bool :=
  match x with
  | XObject _ => true
  | XString _ => false
  end.

(** [x.k] for the argument of [error]. *)
Definition ErrorArg_prop (h : heap) (k : string) (x : ErrorArg) : value :=
  match x with
  | XObject l =>
      match h !! l with
      | Some o => get_prop k o
      | None => VUndefined
      end
  | XString _ => VUndefined
  end.

(** ** The data of the class *)

(** [KEYWORD] of color-convert: a CSS colour name. *)
Definition KEYWORD := string.

Record Context := mkContext {
  name : string;
  color : option KEYWORD;
}.

Module Level.
Inductive t := error | success | warning | debug | info.

(** The string each member of the union type is. *)
Definition to_string (l : t) : string :=
  match l with
  | error => "error"
  | success => "success"
  | warning => "warning"
  | debug => "debug"
  | info => "info"
  end.

Definition eqb (a b : t) : bool :=
  match a, b with
  | error, error | success, success | warning, warning
  | debug, debug | info, info => true
  | _, _ => false
  end.
End Level.

(** The fields of [clConfig] that the class reads. *)
Record CloudLogging := mkCloudLogging {
  projectId : option string;
  saKeyPath : option string;
  logName : option string;
}.

Unset Elimination Schemes.
Inductive Logger := mkLogger {
  context : Context;
  parentLogger : option Logger;
  store : bool;
  clConfig : option CloudLogging;
}.
Set Elimination Schemes.

(** Induction along the parent references, from a root to its descendants. *)
Fixpoint Logger_chain_ind (P : Logger → Prop)
    (Hroot : ∀ c s cl, P (mkLogger c None s cl))
    (Hchild : ∀ c p s cl, P p → P (mkLogger c (Some p) s cl))
    (l : Logger) : P l :=
  match l with
  | mkLogger c None s cl => Hroot c s cl
  | mkLogger c (Some p) s cl =>
      Hchild c p s cl (Logger_chain_ind P Hroot Hchild p)
  end.

(** [new Logger(context, color, store, clConfig)] *)
Definition new_Logger (ctx : string) (col : option KEYWORD) (st : bool)
    (cl : option CloudLogging) : Logger :=
  mkLogger (mkContext ctx col) None st cl.

Definition createSubLogger (this : Logger) (ctx : string)
    (col : option KEYWORD) (st : bool) : Logger :=
  let logger := new_Logger ctx col st None in
  mkLogger (context logger) (Some this) (store logger) (clConfig logger).

(** The loggers from [l] up to its root, [l] first. *)
Fixpoint ancestors (l : Logger) : list Logger :=
  match l with
  | mkLogger _ None _ _ => [l]
  | mkLogger _ (Some p) _ _ => l :: ancestors p
  end.

(** The logger at the top of the chain of [l]. *)
Fixpoint root (l : Logger) : Logger :=
  match l with
  | mkLogger _ None _ _ => l
  | mkLogger _ (Some p) _ _ => root p
  end.

(** The number of parent references between [l] and its root. *)
Fixpoint depth (l : Logger) : nat :=
  match l with
  | mkLogger _ None _ _ => 0
  | mkLogger _ (Some p) _ _ => S (depth p)
  end.

(** ** The process *)

(** [envOption] of ./env.js: the flags the class reads. *)
Record EnvOption := mkEnvOption {
  quiet : bool;
  verbose : bool;
  withLogTime : bool;
}.

(** [Date], in milliseconds since the epoch. *)
Definition Date := Z.

(** [cluster.isPrimary], and [cluster.worker.id] otherwise. *)
Inductive Cluster :=
| Primary
| Worker (id : N).

(** What an emission reads from the process: the options, [NODE_ENV], the
    cluster role and the clock ([new Date()]). *)
Record Process := mkProcess {
  envOption : EnvOption;
  NODE_ENV : option string;
  cluster : Cluster;
  clock : Date;
}.

(** ** The imported libraries *)

(** The chalk styles the class uses; [rgb] is [chalk.rgb(r, g, b)]. *)
Inductive Style :=
| bgRed_white
| red
| yellow
| bgGreen_white
| green
| gray
| blue
| white
| bold
| rgb (r g b : N).

Class Libraries := mkLibraries {
  (** [chalk.<style>(text)] *)
  chalk : Style → string → string;
  (** [convertColor.keyword.rgb(keyword)] *)
  keyword_rgb : KEYWORD → N * N * N;
  (** [dateFormat(date, pattern)] of date-fns *)
  dateFormat : Date → string → string;
  (** [stripAnsi(text)] *)
  stripAnsi : string → string;
  (** [util.inspect(value, { depth: null })] *)
  inspect : heap → value → string;
}.

(** ** Sink entries and the trace of calls *)

Record Resource := mkResource {
  type : string;
  timestamp : Date;
}.

Record Labels := mkLabels {
  label_name : string;
  label_color : string;
}.

Record Metadata := mkMetadata {
  severity : string;
  resource : Resource;
  labels : Labels;
}.

(** One [log.write(entry)]: the client ([new Logging({ projectId,
    keyFilename })]), the log name, and the entry ([log.entry(metadata,
    text)]). *)
Record Entry := mkEntry {
  entry_projectId : string;
  entry_keyFilename : string;
  entry_logName : string;
  metadata : Metadata;
  text : string;
}.

(** The argument of a [console.log]. *)
Inductive ConsoleArg :=
| CString (s : string)
| CData (d : Data).

(** What [log] does at a root: calls of [console.log] and the call of
    [this.writeCloudLogging], each with the logger that made it. *)
Inductive Call :=
| console_log (this : Logger) (arg : ConsoleArg)
| call_writeCloudLogging (this : Logger) (level : Level.t) (message : string)
    (time : Date) (data : Data).

Definition performed_by (c : Call) : Logger :=
  match c with
  | console_log this _ => this
  | call_writeCloudLogging this _ _ _ _ => this
  end.

Definition is_console_log (c : Call) : bool :=
  match c with
  | console_log _ _ => true
  | _ => false
  end.

Definition is_writeCloudLogging (c : Call) : bool :=
  match c with
  | call_writeCloudLogging _ _ _ _ _ => true
  | _ => false
  end.

(** The arguments of the [console.log] calls of a trace, in order. *)
Definition console_output (t : list Call) : list ConsoleArg :=
  omap (λ c, match c with console_log _ a => Some a | _ => None end) t.

(** ** The methods *)

Section Methods.
Context `{Libraries}.
Variable process : Process.

(** The local [worker] of [log]. *)
Definition worker : string :=
  match cluster process with
  | Primary => "*"
  | Worker id => pretty id
  end.

(** The local [l] of [log]: the tag of the level. *)
Definition level_tag (level : Level.t) (important : bool) : string :=
  match level with
  | Level.error =>
      if important then chalk bgRed_white "ERR " else chalk red "ERR "
  | Level.warning => chalk yellow "WARN"
  | Level.success =>
      if important then chalk bgGreen_white "DONE" else chalk green "DONE"
  | Level.debug => chalk gray "VERB"
  | Level.info => chalk blue "INFO"
  end.

(** One element of the local [contexts] of [log]. The test [d.color ? :] is
    one of truthiness: an empty string counts as absent. *)
Definition render_context (d : Context) : string :=
  match color d with
  | Some c =>
      if String.eqb c "" then chalk white (name d)
      else let '(r, g, b) := keyword_rgb c in chalk (rgb r g b) (name d)
  | None => chalk white (name d)
  end.

(** The local [m] of [log]: the message in the colour of the level. *)
Definition level_message (level : Level.t) (message : string) : string :=
  match level with
  | Level.error => chalk red message
  | Level.warning => chalk yellow message
  | Level.success => chalk green message
  | Level.debug => chalk gray message
  | Level.info => message
  end.

(** The part [[${contexts.join(' ')}]] of the line. *)
Definition context_label (contexts : list Context) : string :=
  "[" +:+ String.concat " " (map render_context contexts) +:+ "]".

(** The local [log] of [log]: the line, with the time in front when
    [envOption.withLogTime] is set. *)
Definition format_log (timestamp : Date) (level : Level.t)
    (message : string) (important : bool) (contexts : list Context)
    : string :=
  let time := dateFormat timestamp "HH:mm:ss" in
  let l := level_tag level important in
  let m := level_message level message in
  let log := l +:+ " " +:+ worker +:+ TAB +:+ context_label contexts
               +:+ TAB +:+ m in
  if withLogTime (envOption process) then chalk gray time +:+ " " +:+ log
  else log.

(** [log]. The parameter [store] of the source is [store_] here. *)
Fixpoint log (this : Logger) (level : Level.t) (message : string)
    (data : Data) (important : bool) (subContexts : list Context)
    (store_ : bool) {struct this} : list Call :=
  if quiet (envOption process) then []
  else
    let store_ := if negb (store this) then false else store_ in
    let store_ := if Level.eqb level Level.debug then false else store_ in
    match this with
    | mkLogger _ (Some parent) _ _ =>
        log parent level message data important
          (context this :: subContexts) store_
    | mkLogger _ None _ _ =>
        let timestamp := clock process in
        let log_ :=
          format_log timestamp level message important
            (context this :: subContexts) in
        console_log this (CString (if important then chalk bold log_ else log_))
        :: (if Level.eqb level Level.error && Data_truthy data then
              [console_log this (CData data);
               call_writeCloudLogging this level log_ timestamp data]
            else
              [call_writeCloudLogging this level log_ timestamp DNull])
    end.

(** A property of [clConfig] is truthy: present and not the empty string. *)
Definition truthy_string (o : option string) : bool :=
  match o with
  | Some s => negb (String.eqb s "")
  | None => false
  end.

(** [`${this.context.color}`] *)
Definition color_tag (c : Context) : string :=
  match color c with
  | Some k => k
  | None => "undefined"
  end.

(** [writeCloudLogging], up to its [log.write(entry)]: the entry written,
    or [None] when the method returns early. The body runs within the call
    (nothing is awaited before the write), so it reads the store [h] of the
    moment of the call. *)
Definition writeCloudLogging (h : heap) (this : Logger) (level : Level.t)
    (message : string) (time : Date) (data : Data) : option Entry :=
  match clConfig this with
  | None => None
  | Some cl =>
      if negb (truthy_string (projectId cl))
         || negb (truthy_string (saKeyPath cl)) then None
      else
        let lv := if Level.eqb level Level.success then Level.info else level in
        let projectId_ := default "" (projectId cl) in
        let keyFilename := default "" (saKeyPath cl) in
        let logName_ := default "cherrypick" (logName cl) in
        let logMessage := stripAnsi message in
        let metadata_ :=
          {| severity := toUpperCase (Level.to_string lv);
             resource := {| type := "global"; timestamp := time |};
             labels := {| label_name := name (context this);
                          label_color := color_tag (context this) |} |} in
        let dataString :=
          match data with
          | DObject l => LF +:+ inspect h (VObject l)
          | _ => ""
          end in
        Some (mkEntry projectId_ keyFilename logName_ metadata_
                (logMessage +:+ dataString))
  end.

(** The entries written to the sink by the calls of a trace. *)
Definition sink_writes (h : heap) (t : list Call) : list Entry :=
  omap (λ c,
    match c with
    | call_writeCloudLogging this level message time data =>
        writeCloudLogging h this level message time data
    | console_log _ _ => None
    end) t.

(** [error]. It returns the store after the call with the trace. *)
Definition error (this : Logger) (h : heap) (x : ErrorArg) (data : Data)
    (important : bool) : heap * list Call :=
  if instanceof_Error h x then
    (* data = data ?? {} *)
    let '(h, d) :=
      match data with
      | DObject l => (h, l)
      | _ => let l := fresh (dom h) in (<[l := PlainObject ∅]> h, l)
      end in
    (* data.e = x *)
    let h := alter (set_e (ErrorArg_value x)) d h in
    (h, log this Level.error (ToString h (ErrorArg_value x)) (DObject d)
          important [] true)
  else if typeof_object x then
    (h, log this Level.error
          (ToString h
             (nullish (ErrorArg_prop h "message" x)
                (nullish (ErrorArg_prop h "name" x) (ErrorArg_value x))))
          data important [] true)
  else
    (h, log this Level.error (ToString h (ErrorArg_value x)) data
          important [] true).

Definition warn (this : Logger) (message : string) (data : Data)
    (important : bool) : list Call :=
  log this Level.warning message data important [] true.

Definition succ (this : Logger) (message : string) (data : Data)
    (important : bool) : list Call :=
  log this Level.success message data important [] true.

Definition debug (this : Logger) (message : string) (data : Data)
    (important : bool) : list Call :=
  if negb (bool_decide (NODE_ENV process = Some "production"))
     || verbose (envOption process)
  then log this Level.debug message data important [] true
  else [].

Definition info (this : Logger) (message : string) (data : Data)
    (important : bool) : list Call :=
  log this Level.info message data important [] true.

(** A call of one of the five emission methods. *)
Inductive Emission :=
| call_error (x : ErrorArg) (data : Data) (important : bool)
| call_warn (message : string) (data : Data) (important : bool)
| call_succ (message : string) (data : Data) (important : bool)
| call_debug (message : string) (data : Data) (important : bool)
| call_info (message : string) (data : Data) (important : bool).

Definition emit (this : Logger) (h : heap) (e : Emission)
    : heap * list Call :=
  match e with
  | call_error x data important => error this h x data important
  | call_warn message data important => (h, warn this message data important)
  | call_succ message data important => (h, succ this message data important)
  | call_debug message data important => (h, debug this message data important)
  | call_info message data important => (h, info this message data important)
  end.

(** The level an emission method passes to [log]. *)
Definition level_of (e : Emission) : Level.t :=
  match e with
  | call_error _ _ _ => Level.error
  | call_warn _ _ _ => Level.warning
  | call_succ _ _ _ => Level.success
  | call_debug _ _ _ => Level.debug
  | call_info _ _ _ => Level.info
  end.

(** The sink entries an emission writes. *)
Definition emit_sink_writes (this : Logger) (h : heap) (e : Emission)
    : list Entry :=
  let '(h', t) := emit this h e in sink_writes h' t.

End Methods.

(** ** Two implementations of the libraries, to run the methods on *)

(** [HH:mm:ss] of a date (the time of day, at UTC). *)
Definition two_digits (n : Z) : string :=
  (if Z.ltb n 10 then "0" else "") +:+ pretty n.

Definition HH_mm_ss (d : Date) : string :=
  let s := ((d `div` 1000) `mod` 86400)%Z in
  two_digits (s `div` 3600)%Z +:+ ":" +:+ two_digits ((s `mod` 3600) `div` 60)%Z
    +:+ ":" +:+ two_digits (s `mod` 60)%Z.

(** A few rows of the keyword table of color-convert. *)
Definition css_keyword_rgb (k : KEYWORD) : N * N * N :=
  if String.eqb k "red" then (255, 0, 0)%N
  else if String.eqb k "green" then (0, 128, 0)%N
  else if String.eqb k "blue" then (0, 0, 255)%N
  else if String.eqb k "yellow" then (255, 255, 0)%N
  else if String.eqb k "white" then (255, 255, 255)%N
  else if String.eqb k "gray" then (128, 128, 128)%N
  else (0, 0, 0)%N.

Definition ESC : string := String (ascii_of_nat 27) EmptyString.

(** The part of the scan of [strip_csi] the next character falls in. *)
Inductive csi_state := in_text | after_esc | in_csi.

(** Removes the control sequences [ESC [ ... final], a final byte being one in
    [@] .. [~]. *)
Fixpoint strip_csi_from (st : csi_state) (s : string) : string :=
  match s with
  | EmptyString => EmptyString
  | String c s' =>
      let n := nat_of_ascii c in
      match st with
      | in_text =>
          if Nat.eqb n 27 then strip_csi_from after_esc s'
          else String c (strip_csi_from in_text s')
      | after_esc =>
          if Nat.eqb n 91 then strip_csi_from in_csi s'
          else String c (strip_csi_from in_text s')
      | in_csi =>
          if Nat.leb 64 n && Nat.leb n 126 then strip_csi_from in_text s'
          else strip_csi_from in_csi s'
      end
  end.

Definition strip_csi : string → string := strip_csi_from in_text.

Definition show_value (v : value) : string :=
  match v with
  | VUndefined => "undefined"
  | VNull => "null"
  | VBool true => "true"
  | VBool false => "false"
  | VString s => "'" +:+ s +:+ "'"
  | VObject _ => "[Object]"
  end.

(** A stand-in for [util.inspect]: the own properties of an object, one level
    deep. *)
Definition show_object (h : heap) (v : value) : string :=
  match v with
  | VObject l =>
      match h !! l with
      | Some o =>
          "{ " +:+ String.concat ", "
                     (map (λ kv, kv.1 +:+ ": " +:+ show_value kv.2)
                        (map_to_list (props_of o))) +:+ " }"
      | None => "{}"
      end
  | _ => show_value v
  end.

(** chalk on a stream without colours (level 0): every style returns its
    text. *)
Definition no_color : Libraries :=
  {| chalk := λ _ s, s;
     keyword_rgb := css_keyword_rgb;
     dateFormat := λ d _, HH_mm_ss d;
     stripAnsi := strip_csi;
     inspect := show_object |}.

Definition sgr (code : string) : string := ESC +:+ "[" +:+ code +:+ "m".

(** The codes chalk puts around a text at colour level 3. *)
Definition ansi_open (st : Style) : string :=
  match st with
  | bgRed_white => sgr "41" +:+ sgr "37"
  | red => sgr "31"
  | yellow => sgr "33"
  | bgGreen_white => sgr "42" +:+ sgr "37"
  | green => sgr "32"
  | gray => sgr "90"
  | blue => sgr "34"
  | white => sgr "37"
  | bold => sgr "1"
  | rgb r g b => sgr ("38;2;" +:+ pretty r +:+ ";" +:+ pretty g +:+ ";" +:+ pretty b)
  end.

Definition ansi_close (st : Style) : string :=
  match st with
  | bgRed_white | bgGreen_white => sgr "39" +:+ sgr "49"
  | bold => sgr "22"
  | _ => sgr "39"
  end.

Definition ansi : Libraries :=
  {| chalk := λ st s, ansi_open st +:+ s +:+ ansi_close st;
     keyword_rgb := css_keyword_rgb;
     dateFormat := λ d _, HH_mm_ss d;
     stripAnsi := strip_csi;
     inspect := show_object |}.

(** ** The loggers and the process of the examples *)

Definition default_process : Process :=
  {| envOption := {| quiet := false; verbose := false; withLogTime := false |};
     NODE_ENV := Some "production";
     cluster := Primary;
     clock := 1700000000000%Z |}.

Definition quiet_process : Process :=
  {| envOption := {| quiet := true; verbose := true; withLogTime := true |};
     NODE_ENV := None;
     cluster := Worker 2;
     clock := 1700000000000%Z |}.

Definition development_process : Process :=
  {| envOption := {| quiet := false; verbose := false; withLogTime := true |};
     NODE_ENV := Some "development";
     cluster := Worker 3;
     clock := 1700000000000%Z |}.

Definition sink_config : CloudLogging :=
  {| projectId := Some "my-project";
     saKeyPath := Some "/etc/keys/sa.json";
     logName := None |}.

(** Root [A] with a sink, its child [B], and the grandchild [C] created with
    [store = false]. *)
Definition logger_A : Logger := new_Logger "A" None true (Some sink_config).
Definition logger_B : Logger := createSubLogger logger_A "B" (Some "red") true.
Definition logger_C : Logger := createSubLogger logger_B "C" None false.

(** A store with a plain object [{ a: 'v' }] at 1 and [new Error("boom")]
    at 2. *)
Definition example_heap : heap :=
  <[1%positive := PlainObject {["a" := VString "v"]}]>
    (<[2%positive := ErrorObject "Error" "boom" ∅]> ∅).

(** ** What a root does *)

(** The calls a root [r] makes for a message that arrives with the list
    [contexts] (its own context included): the body of [log] below the test
    of [this.parentLogger]. *)
Definition root_trace `{Libraries} (process : Process) (r : Logger)
    (level : Level.t) (message : string) (data : Data) (important : bool)
    (contexts : list Context) : list Call :=
  let log_ := format_log process (clock process) level message important contexts in
  console_log r (CString (if important then chalk bold log_ else log_))
  :: (if Level.eqb level Level.error && Data_truthy data then
        [console_log r (CData data);
         call_writeCloudLogging r level log_ (clock process) data]
      else [call_writeCloudLogging r level log_ (clock process) DNull]).

(** The contexts of the chain of [l], the root's first and [l]'s own last. *)
Definition chain_contexts (l : Logger) : list Context :=
  reverse (context <$> ancestors l).

(** The number of calls of a trace that satisfy [f]. *)
Definition count_calls (f : Call → bool) (t : list Call) : nat :=
  length (List.filter f t).

(** The severity [writeCloudLogging] gives a level. *)
Definition sink_severity (level : Level.t) : string :=
  toUpperCase
    (Level.to_string (if Level.eqb level Level.success then Level.info else level)).

(** What an entry written by [this] for [level] at [time] carries apart
    from its text. *)
Definition metadata_of (this : Logger) (level : Level.t) (time : Date)
    : Metadata :=
  {| severity := sink_severity level;
     resource := {| type := "global"; timestamp := time |};
     labels := {| label_name := name (context this);
                  label_color := color_tag (context this) |} |}.

(** The data [log] hands to [writeCloudLogging]. *)
Definition forwarded_data (level : Level.t) (data : Data) : Data :=
  if Level.eqb level Level.error && Data_truthy data then data else DNull.

(** The styles keep an occurrence of [msg]: chalk puts its codes around a
    text, and inside it only where the text has codes or line breaks of its
    own. *)
Definition chalk_keeps `{Libraries} (msg : string) : Prop :=
  ∀ st s, contains msg s → contains msg (chalk st s).

(** The logger can write to the sink: it has a [clConfig] whose [projectId]
    and [saKeyPath] are both truthy (the two tests at the head of
    [writeCloudLogging]). *)
Definition sink_configured (l : Logger) : bool :=
  match clConfig l with
  | Some cl => truthy_string (projectId cl) && truthy_string (saKeyPath cl)
  | None => false
  end.

(** [l] with the [store] flag of every logger of its chain set to [b]. *)
Fixpoint set_stores (b : bool) (l : Logger) : Logger :=
  match l with
  | mkLogger c None _ cl => mkLogger c None b cl
  | mkLogger c (Some p) _ cl => mkLogger c (Some (set_stores b p)) b cl
  end.

(** The text of the tag of a level, before it is styled. *)
Definition raw_tag (level : Level.t) : string :=
  match level with
  | Level.error => "ERR "
  | Level.warning => "WARN"
  | Level.success => "DONE"
  | Level.debug => "VERB"
  | Level.info => "INFO"
  end.

(** The condition under which [debug] calls [log]. *)
Definition debug_enabled (process : Process) : bool :=
  negb (bool_decide (NODE_ENV process = Some "production"))
  || verbose (envOption process).

(** [v] is [undefined] or [null]: the left operand of [??] gives way. *)
Definition is_nullish (v : value) : bool :=
  match v with
  | VUndefined | VNull => true
  | _ => false
  end.

(** The call prints a formatted line ([console.log] of a string; the other
    [console.log] of the class prints the data object of an error). *)
Definition is_console_line (c : Call) : bool :=
  match c with
  | console_log _ (CString _) => true
  | _ => false
  end.

(** The [important] argument of an emission. *)
Definition important_of (e : Emission) : bool :=
  match e with
  | call_error _ _ important
  | call_warn _ _ important
  | call_succ _ _ important
  | call_debug _ _ important
  | call_info _ _ important => important
  end.

(** * Theorems *)

Section Chain.
Context `{Libraries}.
Variable process : Process.

Lemma log_quiet this level message data important subContexts store_ :
  quiet (envOption process) = true →
  log process this level message data important subContexts store_ = [].
Proof. intros Hq. destruct this as [c [p|] s cl]; simpl; by rewrite Hq. Qed.

Lemma root_is_root this : parentLogger (root this) = None.
Proof. induction this as [c s cl | c p s cl IH] using Logger_chain_ind; [done | exact IH]. Qed.

Lemma length_ancestors this : length (ancestors this) = S (depth this).
Proof.
  induction this as [c s cl | c p s cl IH] using Logger_chain_ind; [done |].
  simpl. by rewrite IH.
Qed.

Lemma last_ancestors this : last (ancestors this) = Some (root this).
Proof.
  induction this as [c s cl | c p s cl IH] using Logger_chain_ind; [done |].
  change (last (mkLogger c (Some p) s cl :: ancestors p) = Some (root p)).
  rewrite <- IH. destruct p as [c' [p'|] s' cl']; reflexivity.
Qed.

Lemma head_ancestors this : head (ancestors this) = Some this.
Proof. by destruct this as [c [p|] s cl]. Qed.

(** Delegation: whatever the depth of [this], the trace of [log] is the
    trace of its root, which receives the contexts of the chain in front of
    [subContexts]. The flag [store_] has no part in it. *)
Lemma log_chain this level message data important subContexts store_ :
  quiet (envOption process) = false →
  log process this level message data important subContexts store_
  = root_trace process (root this) level message data important
      (chain_contexts this ++ subContexts).
Proof.
  intros Hq. revert subContexts store_.
  induction this as [c s cl | c p s cl IH] using Logger_chain_ind; intros subContexts store_.
  - simpl. rewrite Hq. reflexivity.
  - simpl. rewrite Hq. rewrite IH.
    unfold chain_contexts. simpl. by rewrite reverse_cons, <- app_assoc.
Qed.

Lemma log_store_irrelevant this level message data important subContexts s1 s2 :
  log process this level message data important subContexts s1
  = log process this level message data important subContexts s2.
Proof.
  destruct (quiet (envOption process)) eqn:Hq.
  - by rewrite !log_quiet.
  - by rewrite !log_chain.
Qed.

Lemma root_trace_performed_by r level message data important contexts :
  Forall (λ c, performed_by c = r)
    (root_trace process r level message data important contexts).
Proof.
  unfold root_trace.
  destruct (Level.eqb level Level.error && Data_truthy data);
    repeat constructor.
Qed.

Lemma root_trace_console r level message data important contexts :
  console_output (root_trace process r level message data important contexts)
  = CString (let line := format_log process (clock process) level message
                           important contexts in
             if important then chalk bold line else line)
    :: (if Level.eqb level Level.error && Data_truthy data
        then [CData data] else []).
Proof.
  unfold root_trace.
  by destruct (Level.eqb level Level.error && Data_truthy data).
Qed.

Lemma root_trace_count_write r level message data important contexts :
  count_calls is_writeCloudLogging
    (root_trace process r level message data important contexts) = 1.
Proof.
  unfold root_trace, count_calls.
  by destruct (Level.eqb level Level.error && Data_truthy data).
Qed.

Lemma root_trace_count_console r level message data important contexts :
  count_calls is_console_log
    (root_trace process r level message data important contexts)
  = if Level.eqb level Level.error && Data_truthy data then 2 else 1.
Proof.
  unfold root_trace, count_calls.
  by destruct (Level.eqb level Level.error && Data_truthy data).
Qed.

End Chain.

Section Sink.
Context `{Libraries}.
Variable process : Process.

Lemma writeCloudLogging_Some h this level message time data en :
  writeCloudLogging h this level message time data = Some en →
  metadata en = metadata_of this level time
  ∧ text en = stripAnsi message
              +:+ match data with
                  | DObject l => LF +:+ inspect h (VObject l)
                  | _ => ""
                  end.
Proof.
  unfold writeCloudLogging. destruct (clConfig this) as [cl|]; [|done].
  destruct (negb _ || negb _); [done|].
  intros [= <-]. done.
Qed.

(** With both credentials present the write takes place. *)
Lemma writeCloudLogging_configured h this cl pid key level message time data :
  clConfig this = Some cl →
  projectId cl = Some pid → pid ≠ "" →
  saKeyPath cl = Some key → key ≠ "" →
  is_Some (writeCloudLogging h this level message time data).
Proof.
  intros Hcl Hp Hpne Hk Hkne. unfold writeCloudLogging.
  rewrite Hcl, Hp, Hk. simpl.
  apply String.eqb_neq in Hpne, Hkne. rewrite Hpne, Hkne. simpl. eauto.
Qed.

Lemma sink_writes_root_trace h r level message data important contexts :
  sink_writes h (root_trace process r level message data important contexts)
  = option_list
      (writeCloudLogging h r level
         (format_log process (clock process) level message important contexts)
         (clock process) (forwarded_data level data)).
Proof.
  unfold root_trace, forwarded_data, sink_writes.
  destruct (Level.eqb level Level.error && Data_truthy data); simpl;
    by destruct (writeCloudLogging _ _ _ _ _ _).
Qed.

(** A property of all entries that a root would write holds of all entries
    that [log] writes, at any depth and under any flags. *)
Lemma sink_writes_log_Forall (P : Entry → Prop) h this level message data
    important subContexts store_ :
  (∀ en,
     writeCloudLogging h (root this) level
       (format_log process (clock process) level message important
          (chain_contexts this ++ subContexts))
       (clock process) (forwarded_data level data) = Some en → P en) →
  Forall P
    (sink_writes h
       (log process this level message data important subContexts store_)).
Proof.
  intros HP. destruct (quiet (envOption process)) eqn:Hq.
  - rewrite log_quiet by done. constructor.
  - rewrite log_chain by done. rewrite sink_writes_root_trace.
    destruct (writeCloudLogging _ _ _ _ _ _) as [en|] eqn:Hw; simpl;
      repeat constructor. by apply HP.
Qed.

(** Each emission method makes no call, or one call of [log] at its own
    level, with no sub-contexts and [store = true]. *)
Lemma emit_cases this h e :
  (emit process this h e).2 = []
  ∨ ∃ message data important,
      (emit process this h e).2
      = log process this (level_of e) message data important [] true.
Proof.
  destruct e as [x d i | m d i | m d i | m d i | m d i]; simpl;
    try (right; by eexists _, _, _).
  - right. unfold error.
    destruct (instanceof_Error h x);
      [destruct d | destruct (typeof_object x)]; simpl; by eexists _, _, _.
  - unfold debug. destruct (negb _ || _); [right; by eexists _, _, _ | by left].
Qed.

Lemma emit_sink_writes_Forall (P : Entry → Prop) this h e :
  (∀ h' message time data en,
     writeCloudLogging h' (root this) (level_of e) message time data = Some en →
     time = clock process → P en) →
  Forall P (emit_sink_writes process this h e).
Proof.
  intros HP. unfold emit_sink_writes.
  destruct (emit_cases this h e) as [Hnil | (m & d & i & Hlog)];
    destruct (emit process this h e) as [h' t]; simpl in *; subst t.
  - constructor.
  - apply sink_writes_log_Forall. intros en Hen. by eapply HP.
Qed.

(** With the quiet flag off and both credentials on the root, [log] writes
    exactly one entry: whatever the level, and whatever the [store] flags of
    the chain and the [store_] argument. *)
Lemma log_writes_when_configured h this cl pid key level message data
    important subContexts store_ :
  quiet (envOption process) = false →
  clConfig (root this) = Some cl →
  projectId cl = Some pid → pid ≠ "" →
  saKeyPath cl = Some key → key ≠ "" →
  ∃ en,
    sink_writes h
      (log process this level message data important subContexts store_)
    = [en].
Proof.
  intros Hq Hcl Hp Hpne Hk Hkne.
  rewrite log_chain by done. rewrite sink_writes_root_trace.
  destruct (writeCloudLogging_configured h (root this) cl pid key level
              (format_log process (clock process) level message important
                 (chain_contexts this ++ subContexts))
              (clock process) (forwarded_data level data)
              Hcl Hp Hpne Hk Hkne) as [en ->].
  by exists en.
Qed.

End Sink.

(** ** The quiet flag *)

(** C5. With [envOption.quiet] set, each of [error], [warn], [succ], [debug]
    and [info], on a logger at any depth, makes no call at all: nothing is
    printed on the console and nothing is written to the sink. *)
Theorem quiet_silences_every_method `{Libraries} (process : Process)
    (this : Logger) (h : heap) (e : Emission) :
  quiet (envOption process) = true →
  (emit process this h e).2 = []
  ∧ console_output (emit process this h e).2 = []
  ∧ emit_sink_writes process this h e = [].
Proof.
  intros Hq.
  assert ((emit process this h e).2 = []) as Hnil.
  { destruct (emit_cases process this h e) as [Hnil | (m & d & i & Hlog)];
      [done|]. rewrite Hlog. by apply log_quiet. }
  unfold emit_sink_writes.
  destruct (emit process this h e) as [h' t]; simpl in *. by subst t.
Qed.

Lemma quiet_silences_every_method_witness :
  (emit (H:=ansi) quiet_process logger_C example_heap
     (call_error (XObject 2%positive) DUndefined true)).2 = []
  ∧ console_output
      (emit (H:=ansi) quiet_process logger_C example_heap
         (call_error (XObject 2%positive) DUndefined true)).2 = []
  ∧ emit_sink_writes (H:=ansi) quiet_process logger_C example_heap
      (call_error (XObject 2%positive) DUndefined true) = [].
Proof.
  apply (quiet_silences_every_method (H:=ansi) quiet_process logger_C
           example_heap (call_error (XObject 2%positive) DUndefined true)).
  reflexivity.
Defined.

(** ** The entries written to the sink *)

(** C6, as amended. Every entry an emission writes to the sink carries the
    upper-cased severity of its level ([success] counted as [info]), the
    resource [{ type: 'global', timestamp }] with the time the root took, and
    as labels the name and colour of the context of the ROOT of the chain:
    the logger that runs [writeCloudLogging], not the one the method was
    called on. *)
Theorem sink_metadata_is_of_the_root `{Libraries} (process : Process)
    (this : Logger) (h : heap) (e : Emission) :
  Forall
    (λ en,
       metadata en
       = {| severity := toUpperCase
                          (Level.to_string
                             (if Level.eqb (level_of e) Level.success
                              then Level.info else level_of e));
            resource := {| type := "global"; timestamp := clock process |};
            labels := {| label_name := name (context (root this));
                         label_color := color_tag (context (root this)) |} |})
    (emit_sink_writes process this h e).
Proof.
  apply emit_sink_writes_Forall. intros h' m time d en Hen ->.
  apply writeCloudLogging_Some in Hen as [-> _]. reflexivity.
Qed.

(** C6 fails as stated: [B.info("x")] on the child [B] (colour [red]) of the
    root [A] (no colour) writes an entry labelled [A] / [undefined]. *)
Lemma sink_labels_not_of_the_caller :
  map (λ en, labels (metadata en))
    (emit_sink_writes (H:=no_color) default_process logger_B ∅
       (call_info "x" DUndefined false))
  = [ {| label_name := "A"; label_color := "undefined" |} ]
  ∧ map (λ en, labels (metadata en))
      (emit_sink_writes (H:=no_color) default_process logger_B ∅
         (call_info "x" DUndefined false))
    ≠ [ {| label_name := name (context logger_B);
           label_color := color_tag (context logger_B) |} ].
Proof. split; [vm_compute; reflexivity | vm_compute; discriminate]. Qed.

(** C7, as amended. The text of every entry that [log] writes is the line
    without its colour codes, followed by a line feed and the inspected data
    only when the level is [error] and [data] is an object; at the other
    levels [log] passes [null] on and the text is the line alone. (The five
    methods call [log] with their level and [data]; [error] with an [Error]
    passes the bag it has put the error in.) *)
Theorem sink_text_appends_data_for_error_only `{Libraries} (process : Process)
    (h : heap) (this : Logger) (level : Level.t) (message : string)
    (data : Data) (important : bool) (subContexts : list Context)
    (store_ : bool) :
  Forall
    (λ en,
       text en
       = stripAnsi
           (format_log process (clock process) level message important
              (chain_contexts this ++ subContexts))
         +:+ match level, data with
             | Level.error, DObject l => LF +:+ inspect h (VObject l)
             | _, _ => ""
             end)
    (sink_writes h
       (log process this level message data important subContexts store_)).
Proof.
  apply sink_writes_log_Forall. intros en Hen.
  apply writeCloudLogging_Some in Hen as [_ ->]. f_equal.
  unfold forwarded_data. by destruct level, data.
Qed.

(** C7 fails as stated: [A.info("x", { a: 'v' })] writes the line and no
    data. *)
Lemma sink_text_without_data_at_info :
  map text
    (emit_sink_writes (H:=no_color) default_process logger_A example_heap
       (call_info "x" (DObject 1%positive) false))
  = [ "INFO *" +:+ TAB +:+ "[A]" +:+ TAB +:+ "x" ]
  ∧ map text
      (emit_sink_writes (H:=no_color) default_process logger_A example_heap
         (call_info "x" (DObject 1%positive) false))
    ≠ [ "INFO *" +:+ TAB +:+ "[A]" +:+ TAB +:+ "x" +:+ LF
        +:+ inspect (Libraries:=no_color) example_heap (VObject 1%positive) ].
Proof. split; [vm_compute; reflexivity | vm_compute; discriminate]. Qed.

(** C8. An entry written for a [success] emission has severity ["INFO"], not
    ["SUCCESS"]; at the other levels the severity is the level's own name in
    upper case. *)
Theorem sink_severity_of_level `{Libraries} (process : Process)
    (this : Logger) (h : heap) (e : Emission) :
  Forall
    (λ en,
       severity (metadata en)
       = match level_of e with
         | Level.success => "INFO"
         | Level.error => "ERROR"
         | Level.warning => "WARNING"
         | Level.debug => "DEBUG"
         | Level.info => "INFO"
         end
       ∧ severity (metadata en) ≠ "SUCCESS"
       ∧ (level_of e ≠ Level.success →
          severity (metadata en) = toUpperCase (Level.to_string (level_of e))))
    (emit_sink_writes process this h e).
Proof.
  apply emit_sink_writes_Forall. intros h' m time d en Hen _.
  apply writeCloudLogging_Some in Hen as [-> _]. simpl.
  unfold sink_severity. by destruct (level_of e).
Qed.

(** ** The flag [store] *)

(** C1, on the code. In the chain [A] > [B] > [C] with [C] created with
    [store = false], [C.info("x")] prints its line and the root still writes
    the entry: [log] computes [store] and hands it on, and the root never
    reads it. *)
Theorem store_false_is_still_written :
  store logger_C = false
  ∧ console_output
      (emit (H:=no_color) default_process logger_C ∅
         (call_info "x" DUndefined false)).2
    = [ CString ("INFO *" +:+ TAB +:+ "[A B C]" +:+ TAB +:+ "x") ]
  ∧ emit_sink_writes (H:=no_color) default_process logger_C ∅
      (call_info "x" DUndefined false)
    = [ {| entry_projectId := "my-project";
           entry_keyFilename := "/etc/keys/sa.json";
           entry_logName := "cherrypick";
           metadata :=
             {| severity := "INFO";
                resource := {| type := "global"; timestamp := clock default_process |};
                labels := {| label_name := "A"; label_color := "undefined" |} |};
           text := "INFO *" +:+ TAB +:+ "[A B C]" +:+ TAB +:+ "x" |} ].
Proof. repeat split; vm_compute; reflexivity. Qed.

(** C2, on the code. Outside production, [A.debug("x")] on a root with a
    sink reaches the root and the entry is written, with severity ["DEBUG"]:
    the [store = false] that [log] sets for [debug] is never read. *)
Theorem debug_is_still_written :
  store logger_A = true
  ∧ map (λ en, severity (metadata en))
      (emit_sink_writes (H:=no_color) development_process logger_A ∅
         (call_debug "x" DUndefined false))
    = [ "DEBUG" ].
Proof. split; vm_compute; reflexivity. Qed.

(** ** Delegation to the root *)

(** C4, as amended. The label lists the contexts from the root down: the
    root's context comes first and the context of the logger the method was
    called on comes last, each logger standing right behind its parent. *)
Theorem label_lists_root_first `{Libraries} (process : Process)
    (this : Logger) (level : Level.t) (message : string) (data : Data)
    (important : bool) :
  quiet (envOption process) = false →
  let line :=
    format_log process (clock process) level message important
      (chain_contexts this) in
  head (console_output (log process this level message data important [] true))
  = Some (CString (if important then chalk bold line else line))
  ∧ head (chain_contexts this) = Some (context (root this))
  ∧ last (chain_contexts this) = Some (context this)
  ∧ (∀ p, parentLogger this = Some p →
          chain_contexts this = (chain_contexts p ++ [context this])%list).
Proof.
  intros Hq line. subst line. split_and!.
  - rewrite log_chain by done. rewrite app_nil_r.
    by rewrite root_trace_console.
  - unfold chain_contexts.
    by rewrite head_reverse, fmap_last, last_ancestors.
  - unfold chain_contexts. rewrite last_reverse.
    by destruct this as [c [p|] s cl].
  - intros p Hp. destruct this as [c [p'|] s cl]; simpl in Hp; [|done].
    injection Hp as ->. unfold chain_contexts. simpl. by rewrite reverse_cons.
Qed.

Lemma label_lists_root_first_witness :
  head (console_output
          (log (H:=no_color) default_process logger_C Level.info "x"
             DUndefined false [] true))
  = Some (CString ("INFO *" +:+ TAB +:+ "[A B C]" +:+ TAB +:+ "x"))
  ∧ head (chain_contexts logger_C) = Some (context logger_A)
  ∧ last (chain_contexts logger_C) = Some (context logger_C).
Proof.
  pose proof (label_lists_root_first (H:=no_color) default_process logger_C
                Level.info "x" DUndefined false eq_refl)
    as (Hline & Hhead & Hlast & _).
  split; [exact Hline | split; [exact Hhead | exact Hlast]].
Defined.

(** C4 fails as stated: in the scenario, [C.info("x")] prints the label
    [[A B C]]; [[C B A]] does not occur in the line. *)
Lemma scenario_label_is_A_B_C :
  console_output
    (emit (H:=no_color) default_process logger_C ∅
       (call_info "x" DUndefined false)).2
  = [ CString ("INFO *" +:+ TAB +:+ "[A B C]" +:+ TAB +:+ "x") ]
  ∧ includes ("INFO *" +:+ TAB +:+ "[A B C]" +:+ TAB +:+ "x") "[C B A]" = false.
Proof. split; vm_compute; reflexivity. Qed.

(** ** Occurrences in a line *)

Lemma string_app_nil_r (s : string) : s +:+ "" = s.
Proof.
  induction s as [|a s IH]; [done|].
  unfold String.append; simpl; fold String.append. by rewrite IH.
Qed.

Lemma string_app_assoc (s1 s2 s3 : string) :
  s1 +:+ (s2 +:+ s3) = (s1 +:+ s2) +:+ s3.
Proof.
  induction s1 as [|a s IH]; [done|].
  unfold String.append; simpl; fold String.append. by rewrite IH.
Qed.

Lemma contains_refl (s : string) : contains s s.
Proof. exists "", "". by rewrite string_app_nil_r. Qed.

Lemma contains_app_r (sub p s : string) :
  contains sub s → contains sub (p +:+ s).
Proof.
  intros (pre & post & ->). exists (p +:+ pre), post.
  by rewrite string_app_assoc.
Qed.

Lemma contains_app_l (sub s p : string) :
  contains sub s → contains sub (s +:+ p).
Proof.
  intros (pre & post & ->). exists pre, (post +:+ p).
  by rewrite <- !string_app_assoc.
Qed.

Lemma Error_toString_contains (msg : string) :
  contains msg (Error_toString "Error" msg).
Proof.
  unfold Error_toString. rewrite decide_False by done.
  destruct (decide (msg = "")) as [->|_].
  - by exists "", "Error".
  - do 2 apply contains_app_r. apply contains_refl.
Qed.

Section Error.
Context `{Libraries}.
Variable process : Process.

Lemma format_log_contains msg time level message important contexts :
  chalk_keeps msg →
  contains msg message →
  contains msg (format_log process time level message important contexts).
Proof.
  intros Hk Hm. unfold format_log.
  assert (contains msg (level_message level message)) as Hlm.
  { destruct level; simpl; auto. }
  destruct (withLogTime (envOption process));
    repeat apply contains_app_r; done.
Qed.

(** The line a root prints has the message in it. *)
Lemma log_line_contains msg this level message data important :
  quiet (envOption process) = false →
  chalk_keeps msg →
  contains msg message →
  ∃ line,
    console_output (log process this level message data important [] true)
    = CString line
      :: (if Level.eqb level Level.error && Data_truthy data
          then [CData data] else [])
    ∧ contains msg line.
Proof.
  intros Hq Hk Hm. rewrite log_chain by done.
  rewrite root_trace_console. eexists. split; [reflexivity|].
  simpl. destruct important; [apply Hk|]; by apply format_log_contains.
Qed.

Lemma error_of_string this h s data important :
  error process this h (XString s) data important
  = (h, log process this Level.error s data important [] true).
Proof. reflexivity. Qed.

(** [error] on something that is not an [Error] leaves the store as it
    is. *)
Lemma error_heap_unchanged this h x data important :
  instanceof_Error h x = false →
  (error process this h x data important).1 = h.
Proof.
  intros Hx. unfold error. rewrite Hx. by destruct (typeof_object x).
Qed.

(** [error] on an [Error]: the bag is the caller's object, or a new one
    when there is none; the error is stored in it under [e], and the
    message is [x.toString()]. *)
Lemma error_of_Error this h xl n m ps data important :
  h !! xl = Some (ErrorObject n m ps) →
  let d := match data with
           | DObject l => l
           | _ => fresh (dom h)
           end in
  let h1 := match data with
            | DObject _ => h
            | _ => <[d := PlainObject ∅]> h
            end in
  error process this h (XObject xl) data important
  = (alter (set_e (VObject xl)) d h1,
     log process this Level.error (Error_toString n m) (DObject d)
       important [] true).
Proof.
  intros Hxl d h1. unfold error. simpl. rewrite Hxl.
  assert (∃ ps', alter (set_e (VObject xl)) d h1 !! xl
                 = Some (ErrorObject n m ps')) as [ps' Hps'].
  { destruct (decide (d = xl)) as [Heq|Hne].
    - assert (h1 !! xl = Some (ErrorObject n m ps)) as Hh1.
      { subst h1 d. destruct data; simpl in *; try done.
        all: exfalso; pose proof (is_fresh (dom h)) as Hf;
          rewrite Heq in Hf; apply Hf, elem_of_dom; eauto. }
      exists (<["e" := VObject xl]> ps). subst d. rewrite Heq.
      rewrite lookup_alter_eq, Hh1. reflexivity.
    - exists ps. rewrite lookup_alter_ne by done.
      subst h1. destruct data; try done;
        by rewrite lookup_insert_ne. }
  subst d h1. destruct data; simpl; rewrite Hps'; reflexivity.
Qed.

End Error.

(** ** The method [error] *)

(** C9. With the quiet flag off, [error("boom")] and
    [error(new Error("boom"))] both print a line that has the text in it (for
    every text that the styles keep). The string form hands [data] to [log]
    as it got it and changes no object. The [Error] form hands [log] a data
    bag, the caller's or a new one, which holds the error under [e], and the
    root prints that bag after the line. *)
Theorem error_string_and_Error_forms `{Libraries} (process : Process)
    (this : Logger) (h : heap) (msg : string) (xl : loc)
    (ps : gmap string value) (data : Data) (important : bool) :
  quiet (envOption process) = false →
  chalk_keeps msg →
  h !! xl = Some (ErrorObject "Error" msg ps) →
  match data with DObject l => is_Some (h !! l) | _ => True end →
  (error process this h (XString msg) data important
   = (h, log process this Level.error msg data important [] true)
   ∧ ∃ line,
       console_output (error process this h (XString msg) data important).2
       = CString line :: (if Data_truthy data then [CData data] else [])
       ∧ contains msg line)
  ∧ (∃ d h' o',
       error process this h (XObject xl) data important
       = (h', log process this Level.error (Error_toString "Error" msg)
                (DObject d) important [] true)
       ∧ match data with DObject l => d = l | _ => h !! d = None end
       ∧ h' !! d = Some o'
       ∧ get_prop "e" o' = VObject xl
       ∧ ∃ line,
           console_output (error process this h (XObject xl) data important).2
           = [CString line; CData (DObject d)]
           ∧ contains msg line).
Proof.
  intros Hq Hk Hxl Hdata. split.
  - split; [reflexivity|].
    rewrite error_of_string. simpl.
    destruct (log_line_contains process msg this Level.error msg data
                important Hq Hk (contains_refl msg)) as (line & Hout & Hc).
    exists line. by split.
  - pose proof (error_of_Error process this h xl "Error" msg ps data
                  important Hxl) as Herr. simpl in Herr.
    destruct (log_line_contains process msg this Level.error
                (Error_toString "Error" msg)
                (DObject (match data with
                          | DObject l => l
                          | _ => fresh (dom h)
                          end))
                important Hq Hk (Error_toString_contains msg))
      as (line & Hout & Hc).
    assert (∀ l (g : heap) o,
              g !! l = Some o →
              ∃ o', alter (set_e (VObject xl)) l g !! l = Some o'
                    ∧ get_prop "e" o' = VObject xl) as Hset.
    { intros l g o Hl. exists (set_e (VObject xl) o).
      rewrite lookup_alter_eq, Hl. split; [done|].
      destruct o; simpl; by rewrite ?decide_False, lookup_insert_eq by done. }
    assert (h !! fresh (dom h) = None) as Hfresh.
    { apply not_elem_of_dom, is_fresh. }
    destruct data as [| |l].
    + destruct (Hset (fresh (dom h)) (<[fresh (dom h) := PlainObject ∅]> h)
                  (PlainObject ∅)) as (o' & Ho' & He);
        [by rewrite lookup_insert_eq|].
      eexists _, _, o'. rewrite Herr. simpl.
      split_and!; [reflexivity | done | done | done |]. by exists line.
    + destruct (Hset (fresh (dom h)) (<[fresh (dom h) := PlainObject ∅]> h)
                  (PlainObject ∅)) as (o' & Ho' & He);
        [by rewrite lookup_insert_eq|].
      eexists _, _, o'. rewrite Herr. simpl.
      split_and!; [reflexivity | done | done | done |]. by exists line.
    + destruct Hdata as [o Ho].
      destruct (Hset l h o Ho) as (o' & Ho' & He).
      eexists _, _, o'. rewrite Herr. simpl.
      split_and!; [reflexivity | done | done | done |]. by exists line.
Qed.

Lemma ansi_chalk_keeps (msg : string) : chalk_keeps (H:=ansi) msg.
Proof.
  intros st s Hs.
  change (contains msg (ansi_open st +:+ (s +:+ ansi_close st))).
  by apply contains_app_r, contains_app_l.
Qed.

Lemma error_string_and_Error_forms_witness :
  (∃ line,
     console_output
       (error (H:=ansi) development_process logger_B example_heap
          (XString "boom") DUndefined true).2
     = [CString line]
     ∧ contains "boom" line)
  ∧ (∃ d h' o',
       error (H:=ansi) development_process logger_B example_heap
         (XObject 2%positive) DUndefined true
       = (h', log (H:=ansi) development_process logger_B Level.error
                "Error: boom" (DObject d) true [] true)
       ∧ example_heap !! d = None
       ∧ h' !! d = Some o'
       ∧ get_prop "e" o' = VObject 2%positive).
Proof.
  destruct (error_string_and_Error_forms (H:=ansi) development_process
              logger_B example_heap "boom" 2%positive ∅ DUndefined true
              eq_refl (ansi_chalk_keeps "boom") eq_refl I)
    as [[_ Hstring] (d & h' & o' & Herr & Hd & Hh' & He & _)].
  split; [exact Hstring|].
  exists d, h', o'. split; [exact Herr|]. split; [exact Hd|].
  split; [exact Hh' | exact He].
Defined.

(** C10. [error(x, data)] with [x] an [Error] and [data] an object of the
    caller updates that very object: afterwards it holds [x] under [e] and
    its other properties are as before, and no other object has changed.
    When [x] is not an [Error] (a string, or another object) the store, and
    with it the caller's object, is as before. *)
Theorem error_updates_caller_data_in_place `{Libraries} (process : Process)
    (this : Logger) (h : heap) (x_error x_other : ErrorArg) (l : loc)
    (o : object) (data : Data) (important : bool) :
  h !! l = Some o →
  instanceof_Error h x_error = true →
  instanceof_Error h x_other = false →
  (let h' := (error process this h x_error (DObject l) important).1 in
   h' !! l = Some (set_e (ErrorArg_value x_error) o)
   ∧ get_prop "e" (set_e (ErrorArg_value x_error) o) = ErrorArg_value x_error
   ∧ (∀ k, k ≠ "e" →
           get_prop k (set_e (ErrorArg_value x_error) o) = get_prop k o)
   ∧ (∀ l', l' ≠ l → h' !! l' = h !! l'))
  ∧ (error process this h x_other data important).1 = h.
Proof.
  intros Hl Hx Hother. split; [|by apply error_heap_unchanged].
  destruct x_error as [s|xl]; [done|]. simpl in Hx.
  destruct (h !! xl) as [[n m ps|ps]|] eqn:Hxl; try done.
  rewrite (error_of_Error process this h xl n m ps (DObject l) important Hxl).
  simpl. split_and!.
  - by rewrite lookup_alter_eq, Hl.
  - destruct o; simpl; by rewrite ?decide_False, lookup_insert_eq by done.
  - intros k Hk. destruct o; simpl; repeat case_decide; try done;
      by rewrite lookup_insert_ne.
  - intros l' Hl'. by rewrite lookup_alter_ne.
Qed.

Lemma error_updates_caller_data_in_place_witness :
  (error (H:=no_color) default_process logger_C example_heap
     (XObject 2%positive) (DObject 1%positive) false).1 !! 1%positive
  = Some (PlainObject (<["e" := VObject 2%positive]> {["a" := VString "v"]}))
  ∧ (error (H:=no_color) default_process logger_C example_heap
       (XString "boom") (DObject 1%positive) false).1 = example_heap.
Proof.
  destruct (error_updates_caller_data_in_place (H:=no_color) default_process
              logger_C example_heap (XObject 2%positive) (XString "boom")
              1%positive (PlainObject {["a" := VString "v"]})
              (DObject 1%positive) false eq_refl eq_refl eq_refl)
    as [(Hl & _) Hsame].
  split; [exact Hl | exact Hsame].
Defined.

(** * Further properties of the class *)

(** ** The gate of [debug] *)

Section Debug.
Context `{Libraries}.
Variable process : Process.

(** X1. In production with [envOption.verbose] unset, [debug] does nothing,
    at any depth and whatever the quiet flag: no call of [console.log], no
    call of [writeCloudLogging], no entry. *)
Theorem debug_closed_in_production (this : Logger) (h : heap)
    (message : string) (data : Data) (important : bool) :
  NODE_ENV process = Some "production" →
  verbose (envOption process) = false →
  debug process this message data important = []
  ∧ emit_sink_writes process this h (call_debug message data important) = [].
Proof.
  intros Henv Hv.
  assert (debug process this message data important = []) as Hnil.
  { unfold debug. rewrite Henv, Hv. reflexivity. }
  split; [exact Hnil|]. unfold emit_sink_writes. simpl. by rewrite Hnil.
Qed.

(** X2. With the quiet flag off, outside production or with
    [envOption.verbose] set, [debug] at any depth makes exactly two calls,
    both by the root: it prints the line of level [debug], and it calls
    [writeCloudLogging] with that line (not the bold one) and [null] for the
    data. *)
Theorem debug_open_trace (this : Logger) (message : string) (data : Data)
    (important : bool) :
  quiet (envOption process) = false →
  debug_enabled process = true →
  let line :=
    format_log process (clock process) Level.debug message important
      (chain_contexts this) in
  debug process this message data important
  = [ console_log (root this)
        (CString (if important then chalk bold line else line));
      call_writeCloudLogging (root this) Level.debug line (clock process)
        DNull ].
Proof.
  intros Hq Hen line. subst line. unfold debug.
  unfold debug_enabled in Hen. rewrite Hen.
  rewrite log_chain by done. by rewrite app_nil_r.
Qed.

End Debug.

Lemma debug_closed_in_production_witness :
  debug (H:=ansi) default_process logger_C "x" (DObject 1%positive) true = []
  ∧ emit_sink_writes (H:=ansi) default_process logger_C example_heap
      (call_debug "x" (DObject 1%positive) true) = [].
Proof.
  exact (debug_closed_in_production (H:=ansi) default_process logger_C
           example_heap "x" (DObject 1%positive) true eq_refl eq_refl).
Defined.

Lemma debug_open_trace_witness :
  debug (H:=no_color) development_process logger_C "x" DUndefined false
  = [ console_log logger_A
        (CString ("22:13:20 VERB 3" +:+ TAB +:+ "[A B C]" +:+ TAB +:+ "x"));
      call_writeCloudLogging logger_A Level.debug
        ("22:13:20 VERB 3" +:+ TAB +:+ "[A B C]" +:+ TAB +:+ "x")
        (clock development_process) DNull ].
Proof.
  exact (debug_open_trace (H:=no_color) development_process logger_C "x"
           DUndefined false eq_refl eq_refl).
Defined.

(** ** What the other methods ignore *)

Section Ignored.
Context `{Libraries}.

Lemma log_data_ignored process this level message d1 d2 important
    subContexts s1 s2 :
  level ≠ Level.error →
  log process this level message d1 important subContexts s1
  = log process this level message d2 important subContexts s2.
Proof.
  intros Hl. destruct (quiet (envOption process)) eqn:Hq.
  - by rewrite !log_quiet.
  - rewrite !log_chain by done. unfold root_trace.
    by destruct level.
Qed.

(** X3. [warn], [succ], [debug] and [info] drop their [data]: whatever is
    passed, the calls they make are the same. Only [error] prints or
    forwards it. *)
Theorem data_dropped_below_error (process : Process) (this : Logger)
    (message : string) (d1 d2 : Data) (important : bool) :
  warn process this message d1 important
  = warn process this message d2 important
  ∧ succ process this message d1 important
    = succ process this message d2 important
  ∧ debug process this message d1 important
    = debug process this message d2 important
  ∧ info process this message d1 important
    = info process this message d2 important.
Proof.
  unfold warn, succ, debug, info. split_and!;
    try destruct (negb _ || _); try reflexivity;
    by apply log_data_ignored.
Qed.

Lemma log_process_agree p1 p2 this level message data important
    subContexts store_ :
  quiet (envOption p1) = quiet (envOption p2) →
  withLogTime (envOption p1) = withLogTime (envOption p2) →
  cluster p1 = cluster p2 →
  clock p1 = clock p2 →
  log p1 this level message data important subContexts store_
  = log p2 this level message data important subContexts store_.
Proof.
  intros Hq Ht Hc Hk. destruct (quiet (envOption p2)) eqn:Hq2.
  - by rewrite !log_quiet.
  - rewrite !log_chain by done.
    unfold root_trace, format_log, worker. by rewrite Ht, Hc, Hk.
Qed.

(** X4. [NODE_ENV] and [envOption.verbose] matter to [debug] alone: for
    [error], [warn], [succ] and [info], two processes that agree on the quiet
    flag, on [withLogTime], on the cluster role and on the clock give the
    same store and the same calls. *)
Theorem production_mode_only_gates_debug (p1 p2 : Process) (this : Logger)
    (h : heap) (e : Emission) :
  level_of e ≠ Level.debug →
  quiet (envOption p1) = quiet (envOption p2) →
  withLogTime (envOption p1) = withLogTime (envOption p2) →
  cluster p1 = cluster p2 →
  clock p1 = clock p2 →
  emit p1 this h e = emit p2 this h e.
Proof.
  intros He Hq Ht Hc Hk.
  destruct e as [x d i | m d i | m d i | m d i | m d i]; simpl in *;
    try done; unfold error, warn, succ, info;
    try (f_equal; by apply log_process_agree).
  destruct (instanceof_Error h x); [destruct d | destruct (typeof_object x)];
    f_equal; by apply log_process_agree.
Qed.

End Ignored.

Lemma production_mode_only_gates_debug_witness :
  emit (H:=ansi) default_process logger_C example_heap
    (call_error (XObject 2%positive) DNull true)
  = emit (H:=ansi)
      {| envOption := {| quiet := false; verbose := true; withLogTime := false |};
         NODE_ENV := Some "development";
         cluster := Primary;
         clock := clock default_process |}
      logger_C example_heap (call_error (XObject 2%positive) DNull true).
Proof.
  apply (production_mode_only_gates_debug (H:=ansi)); [discriminate | reflexivity..].
Defined.

(** ** When the sink is written, and where to *)

Section SinkConfig.
Context `{Libraries}.
Variable process : Process.

Lemma writeCloudLogging_unconfigured h r level message time data :
  sink_configured r = false →
  writeCloudLogging h r level message time data = None.
Proof.
  unfold sink_configured, writeCloudLogging.
  destruct (clConfig r) as [cl|]; [|done].
  destruct (truthy_string (projectId cl)), (truthy_string (saKeyPath cl));
    done.
Qed.

(** X5. Without a [clConfig] on the root, or with a [projectId] or a
    [saKeyPath] that is missing or empty, no emission writes to the sink,
    from any logger of the chain. Only the root's [clConfig] counts. *)
Theorem no_credentials_no_sink_write (this : Logger) (h : heap)
    (e : Emission) :
  sink_configured (root this) = false →
  emit_sink_writes process this h e = [].
Proof.
  intros Hc.
  assert (Forall (λ _, False) (emit_sink_writes process this h e)) as HF.
  { apply emit_sink_writes_Forall. intros h' m t d en Hen _.
    by rewrite writeCloudLogging_unconfigured in Hen. }
  destruct (emit_sink_writes process this h e) as [|en l]; [done|].
  by apply Forall_cons in HF as [[] _].
Qed.

(** X6. With the quiet flag off and both credentials on the root, a call of
    [log] at any depth writes exactly one entry: through a client for
    [projectId] and [saKeyPath], to the log [logName], or [cherrypick] when
    [logName] is absent, with the metadata of the root and the stripped line
    (followed by the data that [log] forwards). *)
Theorem sink_entry_when_configured (h : heap) (this : Logger)
    (cl : CloudLogging) (pid key : string) (level : Level.t)
    (message : string) (data : Data) (important : bool)
    (subContexts : list Context) (store_ : bool) :
  quiet (envOption process) = false →
  clConfig (root this) = Some cl →
  projectId cl = Some pid → pid ≠ "" →
  saKeyPath cl = Some key → key ≠ "" →
  sink_writes h
    (log process this level message data important subContexts store_)
  = [ {| entry_projectId := pid;
         entry_keyFilename := key;
         entry_logName := default "cherrypick" (logName cl);
         metadata := metadata_of (root this) level (clock process);
         text :=
           stripAnsi
             (format_log process (clock process) level message important
                (chain_contexts this ++ subContexts))
           +:+ match forwarded_data level data with
               | DObject l => LF +:+ inspect h (VObject l)
               | _ => ""
               end |} ].
Proof.
  intros Hq Hcl Hp Hpne Hk Hkne.
  rewrite log_chain by done. rewrite sink_writes_root_trace.
  unfold writeCloudLogging. rewrite Hcl, Hp, Hk. simpl.
  apply String.eqb_neq in Hpne, Hkne. rewrite Hpne, Hkne. reflexivity.
Qed.

(** X7. One emission writes at most one entry and prints at most twice. *)
Theorem emission_bounds (this : Logger) (h : heap) (e : Emission) :
  (length (emit_sink_writes process this h e) ≤ 1)%nat
  ∧ (length (console_output (emit process this h e).2) ≤ 2)%nat.
Proof.
  unfold emit_sink_writes.
  destruct (emit_cases process this h e) as [Hnil | (m & d & i & Hlog)];
    destruct (emit process this h e) as [h' t]; simpl in *; subst t.
  - simpl. lia.
  - destruct (quiet (envOption process)) eqn:Hq.
    + rewrite log_quiet by done. simpl. lia.
    + rewrite log_chain by done.
      rewrite sink_writes_root_trace, root_trace_console.
      destruct (writeCloudLogging _ _ _ _ _ _);
        destruct (Level.eqb _ _ && _); simpl; lia.
Qed.

End SinkConfig.

Lemma no_credentials_no_sink_write_witness :
  emit_sink_writes (H:=no_color) default_process
    (createSubLogger
       (new_Logger "A" None true
          (Some {| projectId := Some "my-project"; saKeyPath := Some "";
                   logName := Some "app" |}))
       "B" None true)
    example_heap (call_error (XObject 2%positive) DUndefined false)
  = [].
Proof.
  apply (no_credentials_no_sink_write (H:=no_color)). reflexivity.
Defined.

Lemma sink_entry_when_configured_witness :
  sink_writes (H:=no_color) example_heap
    (log (H:=no_color) default_process logger_C Level.error "boom"
       (DObject 1%positive) false [] true)
  = [ {| entry_projectId := "my-project";
         entry_keyFilename := "/etc/keys/sa.json";
         entry_logName := "cherrypick";
         metadata := metadata_of logger_A Level.error (clock default_process);
         text := "ERR  *" +:+ TAB +:+ "[A B C]" +:+ TAB +:+ "boom" +:+ LF
                 +:+ "{ a: 'v' }" |} ].
Proof.
  exact (sink_entry_when_configured (H:=no_color) default_process
           example_heap logger_C sink_config "my-project" "/etc/keys/sa.json"
           Level.error "boom" (DObject 1%positive) false [] true
           eq_refl eq_refl eq_refl ltac:(discriminate) eq_refl
           ltac:(discriminate)).
Defined.

(** ** Sub-loggers and the [store] flags *)

Section SubLoggers.
Context `{Libraries}.
Variable process : Process.

(** X8. Logging on a sub-logger is logging on its parent with the
    sub-logger's context put in front of the contexts passed along; the
    sub-logger has the root of its parent, and its chain of contexts is the
    parent's followed by its own. *)
Theorem log_on_sub_logger (parent : Logger) (ctx : string)
    (col : option KEYWORD) (st : bool) (level : Level.t) (message : string)
    (data : Data) (important : bool) (subContexts : list Context)
    (store_ : bool) :
  log process (createSubLogger parent ctx col st) level message data
    important subContexts store_
  = log process parent level message data important
      (mkContext ctx col :: subContexts) store_
  ∧ root (createSubLogger parent ctx col st) = root parent
  ∧ depth (createSubLogger parent ctx col st) = S (depth parent)
  ∧ chain_contexts (createSubLogger parent ctx col st)
    = (chain_contexts parent ++ [mkContext ctx col])%list.
Proof.
  split_and!; try reflexivity.
  - destruct (quiet (envOption process)) eqn:Hq.
    + by rewrite !log_quiet.
    + rewrite !log_chain by done. f_equal.
      unfold chain_contexts, createSubLogger. simpl.
      by rewrite reverse_cons, <- app_assoc.
  - unfold chain_contexts, createSubLogger. simpl. by rewrite reverse_cons.
Qed.

Lemma set_stores_contexts b l :
  context <$> ancestors (set_stores b l) = context <$> ancestors l.
Proof.
  induction l as [c s cl | c p s cl IH] using Logger_chain_ind; [done|].
  change (context <$> (mkLogger c (Some (set_stores b p)) b cl
                       :: ancestors (set_stores b p))
          = context <$> (mkLogger c (Some p) s cl :: ancestors p)).
  by rewrite !fmap_cons, IH.
Qed.

Lemma set_stores_root b l :
  context (root (set_stores b l)) = context (root l)
  ∧ clConfig (root (set_stores b l)) = clConfig (root l).
Proof.
  induction l as [c s cl | c p s cl IH] using Logger_chain_ind; [done|].
  exact IH.
Qed.

Lemma writeCloudLogging_ext h r1 r2 level message time data :
  context r1 = context r2 →
  clConfig r1 = clConfig r2 →
  writeCloudLogging h r1 level message time data
  = writeCloudLogging h r2 level message time data.
Proof. intros Hc Hl. unfold writeCloudLogging. by rewrite Hc, Hl. Qed.

(** X9. The [store] flags have no effect: with the flag of every logger of
    the chain set to either value, and with either value for the [store]
    argument, [log] prints the same and writes the same entries. *)
Theorem store_flags_change_nothing (h : heap) (b : bool) (this : Logger)
    (level : Level.t) (message : string) (data : Data) (important : bool)
    (subContexts : list Context) (s1 s2 : bool) :
  console_output
    (log process (set_stores b this) level message data important
       subContexts s1)
  = console_output
      (log process this level message data important subContexts s2)
  ∧ sink_writes h
      (log process (set_stores b this) level message data important
         subContexts s1)
    = sink_writes h
        (log process this level message data important subContexts s2).
Proof.
  destruct (quiet (envOption process)) eqn:Hq.
  - by rewrite !log_quiet.
  - rewrite !log_chain by done.
    rewrite !root_trace_console, !sink_writes_root_trace.
    unfold chain_contexts. rewrite set_stores_contexts.
    destruct (set_stores_root b this) as [Hc Hl].
    split; [done|]. f_equal. by apply writeCloudLogging_ext.
Qed.

(** X10. At the levels [warning], [debug] and [info], [important] changes
    the console only: the line is the same one inside [chalk.bold], and what
    is written to the sink is the same. *)
Theorem important_is_console_only (h : heap) (this : Logger)
    (level : Level.t) (message : string) (data : Data)
    (subContexts : list Context) (store_ : bool) :
  quiet (envOption process) = false →
  level ≠ Level.error →
  level ≠ Level.success →
  ∃ line,
    console_output
      (log process this level message data false subContexts store_)
    = [CString line]
    ∧ console_output
        (log process this level message data true subContexts store_)
      = [CString (chalk bold line)]
    ∧ sink_writes h
        (log process this level message data true subContexts store_)
      = sink_writes h
          (log process this level message data false subContexts store_).
Proof.
  intros Hq He Hs. rewrite !log_chain by done.
  rewrite !root_trace_console, !sink_writes_root_trace.
  exists (format_log process (clock process) level message false
            (chain_contexts this ++ subContexts)).
  destruct level; done.
Qed.

End SubLoggers.

Lemma important_is_console_only_witness :
  ∃ line,
    console_output
      (log (H:=ansi) development_process logger_C Level.warning "x" DNull
         false [] true)
    = [CString line]
    ∧ console_output
        (log (H:=ansi) development_process logger_C Level.warning "x" DNull
           true [] true)
      = [CString (chalk (Libraries:=ansi) bold line)]
    ∧ sink_writes (H:=ansi) example_heap
        (log (H:=ansi) development_process logger_C Level.warning "x" DNull
           true [] true)
      = sink_writes (H:=ansi) example_heap
          (log (H:=ansi) development_process logger_C Level.warning "x" DNull
             false [] true).
Proof.
  apply (important_is_console_only (H:=ansi) development_process);
    [reflexivity | discriminate | discriminate].
Defined.

(** ** More on [error] *)

Section ErrorMore.
Context `{Libraries}.
Variable process : Process.

(** X11. [error] on an object that is not an [Error] logs as [error] on a
    string does: on its [message] when that is a string, else (the [message]
    being [undefined] or [null]) on its [name] when that is a string, else
    (both being [undefined] or [null]) on the text [[object Object]]. The
    data and the store are the caller's, unchanged. *)
Theorem error_of_plain_object (this : Logger) (h : heap) (l : loc)
    (o : object) (data : Data) (important : bool) :
  h !! l = Some o →
  instanceof_Error h (XObject l) = false →
  (∀ m, get_prop "message" o = VString m →
        error process this h (XObject l) data important
        = error process this h (XString m) data important)
  ∧ (∀ n, is_nullish (get_prop "message" o) = true →
          get_prop "name" o = VString n →
          error process this h (XObject l) data important
          = error process this h (XString n) data important)
  ∧ (is_nullish (get_prop "message" o) = true →
     is_nullish (get_prop "name" o) = true →
     error process this h (XObject l) data important
     = error process this h (XString "[object Object]") data important).
Proof.
  intros Hl Hne.
  assert (error process this h (XObject l) data important
          = (h, log process this Level.error
                  (ToString h
                     (nullish (get_prop "message" o)
                        (nullish (get_prop "name" o) (VObject l))))
                  data important [] true)) as Herr.
  { unfold error. rewrite Hne. simpl. by rewrite Hl. }
  assert (ToString h (VObject l) = "[object Object]") as Hobj.
  { simpl in *. rewrite Hl in *. by destruct o. }
  rewrite Herr, !error_of_string. split_and!.
  - intros m ->. reflexivity.
  - intros n Hm ->. by destruct (get_prop "message" o).
  - intros Hm Hn.
    destruct (get_prop "message" o); try done;
      destruct (get_prop "name" o); try done; cbn [nullish]; by rewrite Hobj.
Qed.

(** X12. [error] on an [Error] without data ([undefined] or [null]) makes
    the bag itself: a new object, at a reference the store did not have,
    whose one property is [e], the error. Every object of the caller is as
    before, and the new bag is what [log] gets. *)
Theorem error_allocates_bag (this : Logger) (h : heap) (xl : loc)
    (n m : string) (ps : gmap string value) (data : Data)
    (important : bool) :
  h !! xl = Some (ErrorObject n m ps) →
  Data_truthy data = false →
  ∃ d,
    h !! d = None
    ∧ error process this h (XObject xl) data important
      = (<[d := PlainObject {["e" := VObject xl]}]> h,
         log process this Level.error (Error_toString n m) (DObject d)
           important [] true).
Proof.
  intros Hxl Hd. exists (fresh (dom h)). split.
  { apply not_elem_of_dom, is_fresh. }
  rewrite (error_of_Error process this h xl n m ps data important Hxl).
  destruct data; try done; simpl;
    rewrite alter_insert_eq; cbn [set_e]; by rewrite insert_empty.
Qed.

(** X13. The quiet flag does not stop [error] from writing into the
    caller's data: with the flag set, [error] on an [Error] and a data
    object makes no call, and the object holds the error under [e]
    afterwards all the same. *)
Theorem error_attaches_even_when_quiet (this : Logger) (h : heap)
    (xl l : loc) (n m : string) (ps : gmap string value) (o : object)
    (important : bool) :
  quiet (envOption process) = true →
  h !! xl = Some (ErrorObject n m ps) →
  h !! l = Some o →
  (error process this h (XObject xl) (DObject l) important).2 = []
  ∧ (error process this h (XObject xl) (DObject l) important).1 !! l
    = Some (set_e (VObject xl) o).
Proof.
  intros Hq Hxl Hl.
  rewrite (error_of_Error process this h xl n m ps (DObject l) important Hxl).
  simpl. split; [by apply log_quiet|]. by rewrite lookup_alter_eq, Hl.
Qed.

(** X14. Where chalk adds nothing (a stream without colours), the line is
    the four-character tag, a space, the worker, a tab, the names of the
    contexts between brackets with spaces between them, a tab and the
    message; with [withLogTime] the time and a space come first. *)
Theorem plain_line_format (timestamp : Date) (level : Level.t)
    (message : string) (important : bool) (contexts : list Context) :
  (∀ st s, chalk st s = s) →
  let body :=
    raw_tag level +:+ " " +:+ worker process +:+ TAB
      +:+ ("[" +:+ String.concat " " (map name contexts) +:+ "]")
      +:+ TAB +:+ message in
  format_log process timestamp level message important contexts
  = (if withLogTime (envOption process)
     then dateFormat timestamp "HH:mm:ss" +:+ " " +:+ body
     else body)
  ∧ String.length (raw_tag level) = 4.
Proof.
  intros Hplain body. subst body. split; [|by destruct level].
  unfold format_log, context_label.
  assert (map render_context contexts = map name contexts) as ->.
  { apply map_ext. intros d. unfold render_context.
    destruct (color d) as [c|]; [|done].
    destruct (c =? ""); [done|]. by destruct (keyword_rgb c) as [[r g] b]. }
  assert (level_tag level important = raw_tag level) as ->.
  { destruct level, important; apply Hplain. }
  assert (level_message level message = message) as ->.
  { destruct level; simpl; by rewrite ?Hplain. }
  by rewrite Hplain.
Qed.

End ErrorMore.

Lemma error_of_plain_object_witness :
  error (H:=no_color) default_process logger_C
    (<[5%positive := PlainObject {["message" := VString "bad"]}]> ∅)
    (XObject 5%positive) DUndefined false
  = error (H:=no_color) default_process logger_C
      (<[5%positive := PlainObject {["message" := VString "bad"]}]> ∅)
      (XString "bad") DUndefined false.
Proof.
  refine (proj1
            (error_of_plain_object (H:=no_color) default_process logger_C
               (<[5%positive := PlainObject {["message" := VString "bad"]}]>
                  (∅ : heap))
               5%positive (PlainObject {["message" := VString "bad"]})
               DUndefined false _ _) "bad" _);
    vm_compute; reflexivity.
Defined.

Lemma error_allocates_bag_witness :
  ∃ d,
    example_heap !! d = None
    ∧ error (H:=no_color) default_process logger_C example_heap
        (XObject 2%positive) DNull false
      = (<[d := PlainObject {["e" := VObject 2%positive]}]> example_heap,
         log (H:=no_color) default_process logger_C Level.error
           "Error: boom" (DObject d) false [] true).
Proof.
  exact (error_allocates_bag (H:=no_color) default_process logger_C
           example_heap 2%positive "Error" "boom" ∅ DNull false
           eq_refl eq_refl).
Defined.

Lemma error_attaches_even_when_quiet_witness :
  (error (H:=ansi) quiet_process logger_C example_heap (XObject 2%positive)
     (DObject 1%positive) true).2 = []
  ∧ (error (H:=ansi) quiet_process logger_C example_heap (XObject 2%positive)
       (DObject 1%positive) true).1 !! 1%positive
    = Some (set_e (VObject 2%positive) (PlainObject {["a" := VString "v"]})).
Proof.
  exact (error_attaches_even_when_quiet (H:=ansi) quiet_process logger_C
           example_heap 2%positive 1%positive "Error" "boom" ∅
           (PlainObject {["a" := VString "v"]}) true
           eq_refl eq_refl eq_refl).
Defined.

Lemma plain_line_format_witness :
  format_log (H:=no_color) development_process 1700000000000%Z Level.success
    "done" true [mkContext "core" None; mkContext "boot" (Some "red")]
  = "22:13:20 DONE 3" +:+ TAB +:+ "[core boot]" +:+ TAB +:+ "done".
Proof.
  destruct (plain_line_format (H:=no_color) development_process
              1700000000000%Z Level.success "done" true
              [mkContext "core" None; mkContext "boot" (Some "red")]
              (λ _ _, eq_refl)) as [Hline _].
  exact Hline.
Defined.

(** ** One dispatch, at the root *)

Lemma contains_concat (sep x : string) (l : list string) :
  x ∈ l → contains x (String.concat sep l).
Proof.
  induction l as [|y l IH]; intros Hin; [by apply elem_of_nil in Hin|].
  destruct l as [|z l'].
  - apply list_elem_of_singleton in Hin as ->. apply contains_refl.
  - change (String.concat sep (y :: z :: l'))
      with (y +:+ sep +:+ String.concat sep (z :: l')).
    apply elem_of_cons in Hin as [->|Hin].
    + apply contains_app_l, contains_refl.
    + by apply contains_app_r, contains_app_r, IH.
Qed.

Section Dispatch.
Context `{Libraries}.
Variable process : Process.

(** A context of the list is in the label, as [render_context] gives it. *)
Lemma context_label_contains (c : Context) (contexts : list Context) :
  c ∈ contexts →
  contains (render_context c) (context_label contexts).
Proof.
  intros Hc. unfold context_label.
  apply contains_app_r, contains_app_l, contains_concat.
  change (render_context c ∈ render_context <$> contexts).
  by apply list_elem_of_fmap_2.
Qed.

(** Its name is in the label when the styles keep it. *)
Lemma context_label_contains_name (c : Context) (contexts : list Context) :
  c ∈ contexts →
  chalk_keeps (name c) →
  contains (name c) (context_label contexts).
Proof.
  intros Hc Hk.
  destruct (context_label_contains c contexts Hc) as (pre & post & ->).
  apply contains_app_r, contains_app_l.
  unfold render_context. destruct (color c) as [k|].
  - destruct (k =? ""); [apply Hk, contains_refl|].
    destruct (keyword_rgb k) as [[r g] b]. apply Hk, contains_refl.
  - apply Hk, contains_refl.
Qed.

(** The label is in the line. *)
Lemma format_log_contains_label time level message important contexts :
  contains (context_label contexts)
    (format_log process time level message important contexts).
Proof.
  unfold format_log. cbv zeta.
  destruct (withLogTime (envOption process)).
  - do 6 apply contains_app_r. apply contains_app_l, contains_refl.
  - do 4 apply contains_app_r. apply contains_app_l, contains_refl.
Qed.

(** An emission that passes its gates is the dispatch of its root. *)
Lemma emit_root_trace (this : Logger) (h : heap) (e : Emission) :
  quiet (envOption process) = false →
  (level_of e = Level.debug → debug_enabled process = true) →
  ∃ message data,
    (emit process this h e).2
    = root_trace process (root this) (level_of e) message data
        (important_of e) (chain_contexts this).
Proof.
  intros Hq Hgate.
  assert (∀ level m d i,
            log process this level m d i [] true
            = root_trace process (root this) level m d i (chain_contexts this))
    as Hlog.
  { intros. rewrite log_chain by done. by rewrite app_nil_r. }
  destruct e as [x d i | m d i | m d i | m d i | m d i]; simpl;
    try (eexists _, _; by apply Hlog).
  - unfold error.
    destruct (instanceof_Error h x);
      [destruct d | destruct (typeof_object x)]; simpl;
      eexists _, _; by apply Hlog.
  - unfold debug. unfold debug_enabled in Hgate. rewrite (Hgate eq_refl).
    eexists _, _. by apply Hlog.
Qed.

(** C3. An emission on the deepest logger of a chain of N nested children
    (one that passes the quiet flag and, for [debug], the production gate) is
    dispatched once, by the root, not once per level. The trace is: one
    [console.log] of the line; for an [error] with data, the [console.log]
    of the data; one call of [writeCloudLogging]. All of them are made by
    the root, a logger without parent. The label of the line is made of the
    N+1 contexts of the chain: each one is in the label as it is rendered,
    with its name wherever the styles keep the name, and the label is in the
    line. *)
Theorem emission_dispatched_once_at_root (this : Logger) (h : heap)
    (e : Emission) :
  quiet (envOption process) = false →
  (level_of e = Level.debug → debug_enabled process = true) →
  let t := (emit process this h e).2 in
  let label := context_label (chain_contexts this) in
  length (chain_contexts this) = S (depth this)
  ∧ (∀ l, l ∈ ancestors this →
          contains (render_context (context l)) label
          ∧ (chalk_keeps (name (context l)) →
             contains (name (context l)) label))
  ∧ (∃ message data,
       let line :=
         format_log process (clock process) (level_of e) message
           (important_of e) (chain_contexts this) in
       contains label line
       ∧ t = (console_log (root this)
                (CString (if important_of e then chalk bold line else line))
              :: (if Level.eqb (level_of e) Level.error && Data_truthy data
                  then [console_log (root this) (CData data)] else [])
              ++ [call_writeCloudLogging (root this) (level_of e) line
                    (clock process) (forwarded_data (level_of e) data)])%list)
  ∧ count_calls is_console_line t = 1
  ∧ count_calls is_writeCloudLogging t = 1
  ∧ Forall (λ c, performed_by c = root this) t
  ∧ parentLogger (root this) = None.
Proof.
  intros Hq Hgate t label. subst t label.
  destruct (emit_root_trace this h e Hq Hgate) as (message & data & ->).
  assert (∀ l, l ∈ ancestors this → context l ∈ chain_contexts this) as Hin.
  { intros l Hl. unfold chain_contexts.
    by apply elem_of_reverse, list_elem_of_fmap_2. }
  split_and!.
  - unfold chain_contexts.
    by rewrite length_reverse, length_fmap, length_ancestors.
  - intros l Hl. split.
    + by apply context_label_contains, Hin.
    + intros Hk. by apply context_label_contains_name; [apply Hin|].
  - exists message, data. split; [apply format_log_contains_label|].
    unfold root_trace, forwarded_data.
    by destruct (Level.eqb (level_of e) Level.error && Data_truthy data).
  - unfold root_trace, count_calls.
    by destruct (Level.eqb (level_of e) Level.error && Data_truthy data).
  - apply root_trace_count_write.
  - apply root_trace_performed_by.
  - apply root_is_root.
Qed.

End Dispatch.

Lemma emission_dispatched_once_at_root_witness :
  length (chain_contexts logger_C) = 3
  ∧ contains "C" (context_label (H:=ansi) (chain_contexts logger_C))
  ∧ count_calls is_console_line
      (emit (H:=ansi) development_process logger_C example_heap
         (call_debug "x" DUndefined false)).2 = 1
  ∧ count_calls is_writeCloudLogging
      (emit (H:=ansi) development_process logger_C example_heap
         (call_debug "x" DUndefined false)).2 = 1
  ∧ Forall (λ c, performed_by c = logger_A)
      (emit (H:=ansi) development_process logger_C example_heap
         (call_debug "x" DUndefined false)).2.
Proof.
  destruct (emission_dispatched_once_at_root (H:=ansi) development_process
              logger_C example_heap (call_debug "x" DUndefined false)
              eq_refl (λ _, eq_refl))
    as (Hlen & Hnames & _ & Hline & Hwrite & Hroot & _).
  split; [exact Hlen|].
  split; [|split; [exact Hline | split; [exact Hwrite | exact Hroot]]].
  apply (Hnames logger_C); [left | apply ansi_chalk_keeps].
Defined.
